(** * Electronic Hardware Dealer API: a shallow embedding of [main.py] and
    [schemas.py].

    Documents are typed records, one per Pydantic schema; the MongoDB
    database is a record of collections kept in natural (insertion) order;
    [db is None] is the [None] store.  Handlers run in a small state and
    exception monad over that optional store.  Python floats are IEEE 754
    binary64 numbers, modelled with [SpecFloat] at precision 53 and maximal
    exponent 1024.  Request text is modelled as ASCII strings. *)

From Stdlib Require Import ZArith String Ascii List Bool Lia.
From Stdlib Require Import Floats.SpecFloat Sorting.Permutation.
Import ListNotations.

Open Scope string_scope.
Open Scope Z_scope.

(** ** Python floats and numbers *)

Definition float := spec_float.

Definition prec : Z := 53.
Definition emax : Z := 1024.

Definition fzero : float := S754_zero false.
Definition fadd (x y : float) : float := SFadd prec emax x y.
Definition fmul (x y : float) : float := SFmul prec emax x y.

(** [x >= 0] on a Python float: [False] for NaN, [True] for [-0.0]. *)
Definition fge0 (x : float) : bool := SFleb fzero x.

(** [float(z)] on a Python int ([PyLong_AsDouble]): correctly rounded to
    nearest-even, raising [OverflowError] when the rounded value is out of
    range ([None] here). *)
Definition float_of_int (z : Z) : option float :=
  match binary_normalize prec emax z 0 false with
  | S754_infinity _ => None
  | f => Some f
  end.

(** A Python number: an [int] or a [float]. *)
Inductive pynum :=
| PInt (z : Z)
| PFloat (f : float).

(** ** Exceptions, outcomes, identifiers *)

Inductive exc :=
| HTTPException (status_code : Z) (detail : string)
| RequestValidationError  (** FastAPI's 422, raised before the handler runs *)
| ValidationError         (** a Pydantic model built inside a handler *)
| OverflowError
| Unmodelled.             (** behaviour of MongoDB outside this model *)

Inductive outcome (A : Type) :=
| Ok (a : A)
| Raise (e : exc).
Arguments Ok {A} a.
Arguments Raise {A} e.

(** An [ObjectId]; the store issues them from a counter. *)
Definition oid := N.

Definition hex_digit (n : N) : ascii :=
  ascii_of_N (if (n <? 10)%N then 48 + n else 87 + n)%N.

Fixpoint hex_fixed (k : nat) (n : N) (acc : string) : string :=
  match k with
  | O => acc
  | S k' => hex_fixed k' (n / 16)%N (String (hex_digit (n mod 16)%N) acc)
  end.

(** [str(ObjectId)]: 24 lowercase hexadecimal digits. *)
Definition oid_str (id : oid) : string := hex_fixed 24 id EmptyString.

(** ** Schemas ([schemas.py]) *)

Module User.
Record t := mk {
  name : string;
  email : string;
  hashed_password : string;
  role : string;
  is_active : bool }.
End User.

Module Category.
Record t := mk {
  name : string;
  parent_id : option string;
  description : option string }.
End Category.

Module Product.
Record t := mk {
  name : string;
  description : option string;
  price : float;
  sku : option string;
  image_url : option string;
  category_id : string;
  subcategory_id : option string;
  in_stock : bool;
  stock_qty : option Z }.

(** The field constraints: [price >= 0], [stock_qty >= 0]. *)
Definition valid (p : t) : bool :=
  fge0 (price p) &&
  match stock_qty p with Some q => 0 <=? q | None => true end.
End Product.

Module OrderItem.
Record t := mk {
  product_id : string;
  name : string;
  quantity : Z;
  unit_price : float }.

(** [quantity >= 1], [unit_price >= 0]. *)
Definition valid (i : t) : bool := (1 <=? quantity i) && fge0 (unit_price i).
End OrderItem.

Module Order.
Record t := mk {
  user_id : string;
  email : string;
  items : list OrderItem.t;
  subtotal : float;
  tax : float;
  total : float;
  status : string;
  notes : option string;
  shipping_name : option string;
  shipping_address : option string;
  shipping_phone : option string }.
End Order.

(** ** The document store *)

Record store := mkStore {
  users : list (oid * User.t);
  categories : list (oid * Category.t);
  products : list (oid * Product.t);
  orders : list (oid * Order.t);
  next_oid : oid }.

Definition M (A : Type) := option store -> outcome A * option store.

Definition ret {A} (a : A) : M A := fun db => (Ok a, db).
Definition raise {A} (e : exc) : M A := fun db => (Raise e, db).
Definition bind {A B} (m : M A) (k : A -> M B) : M B :=
  fun db => match m db with
            | (Ok a, db') => k a db'
            | (Raise e, db') => (Raise e, db')
            end.

Notation "x <- c1 ;; c2" := (bind c1 (fun x => c2))
  (at level 61, c1 at next level, right associativity).

(** [if db is None: raise HTTPException(500, ...)]; otherwise the store. *)
Definition require_db : M store :=
  fun db => match db with
            | None => (Raise (HTTPException 500 "Database not configured"), db)
            | Some s => (Ok s, db)
            end.

Definition put_store (s : store) : M unit := fun _ => (Ok tt, Some s).

(** *** [create_document]

    Modelled from the spec: [database.create_document] (the module
    [database] is not among the sources).  "inserts it into the named
    collection, returns the newly assigned identifier as a string". *)
Definition insert_user (u : User.t) : M string :=
  s <- require_db ;;
  let id := next_oid s in
  _ <- put_store (mkStore ((users s ++ [(id, u)])%list) (categories s) (products s)
                          (orders s) (N.succ id)) ;;
  ret (oid_str id).

Definition insert_category (c : Category.t) : M string :=
  s <- require_db ;;
  let id := next_oid s in
  _ <- put_store (mkStore (users s) ((categories s ++ [(id, c)])%list) (products s)
                          (orders s) (N.succ id)) ;;
  ret (oid_str id).

Definition insert_product (p : Product.t) : M string :=
  s <- require_db ;;
  let id := next_oid s in
  _ <- put_store (mkStore (users s) (categories s) ((products s ++ [(id, p)])%list)
                          (orders s) (N.succ id)) ;;
  ret (oid_str id).

Definition insert_order (o : Order.t) : M string :=
  s <- require_db ;;
  let id := next_oid s in
  _ <- put_store (mkStore (users s) (categories s) (products s)
                          ((orders s ++ [(id, o)])%list) (N.succ id)) ;;
  ret (oid_str id).

(** [db["user"].find_one({"email": e})]: the first match in natural order. *)
Definition find_user_by_email (s : store) (e : string) : option (oid * User.t) :=
  find (fun d => String.eqb (User.email (snd d)) e) (users s).

(** ** Auth handlers *)

(** The [email] of a request is an [EmailStr]: the strings here are the
    already validated (normalised) addresses. *)
Record SignupRequest := mkSignup {
  su_name : string;
  su_email : string;
  su_password : string }.

Record LoginRequest := mkLogin {
  li_email : string;
  li_password : string }.

(** [signup] returns [{"user_id": ..., "email": ...}]. *)
Definition signup (payload : SignupRequest) : M (string * string) :=
  s <- require_db ;;
  match find_user_by_email s (su_email payload) with
  | Some _ => raise (HTTPException 400 "Email already registered")
  | None =>
      let user := User.mk (su_name payload) (su_email payload)
                          (su_password payload) "customer" true in
      user_id <- insert_user user ;;
      ret (user_id, su_email payload)
  end.

(** [login] returns [{"user_id": ..., "name": ..., "email": ...}]. *)
Definition login (payload : LoginRequest) : M (string * string * string) :=
  s <- require_db ;;
  match find_user_by_email s (li_email payload) with
  | None => raise (HTTPException 401 "Invalid credentials")
  | Some (id, user) =>
      if negb (String.eqb (User.hashed_password user) (li_password payload))
      then raise (HTTPException 401 "Invalid credentials")
      else ret (oid_str id, User.name user, User.email user)
  end.

(** ** Categories *)

(** [get_documents(collection, filter_dict=None, limit=100)].

    Modelled from the spec: [database.get_documents] (not among the
    sources).  "returns documents matching an equality/pattern filter ...,
    capped at [limit], in store-native order"; the default [limit] is 100. *)
Definition get_documents_limit {A} (limit : Z) (docs : list A) : list A :=
  firstn (Z.to_nat limit) docs.

Definition get_categories (limit : Z) : M (list (oid * Category.t)) :=
  s <- require_db ;;
  ret (get_documents_limit limit (categories s)).

(** A category as returned: [c["_id"] = str(c["_id"])]. *)
Definition stringify {A} (d : oid * A) : string * A := (oid_str (fst d), snd d).

Definition option_string_eqb (a b : option string) : bool :=
  match a, b with
  | Some x, Some y => String.eqb x y
  | None, None => true
  | _, _ => false
  end.

(** The dict [by_parent], keyed by [parent_id] ([None] for roots), in key
    insertion order. *)
Definition by_parent_t := list (option string * list (string * Category.t)).

(** [by_parent.setdefault(parent, []).append(c)] *)
Fixpoint setdefault_append (parent : option string) (c : string * Category.t)
    (by_parent : by_parent_t) : by_parent_t :=
  match by_parent with
  | [] => [(parent, [c])]
  | (k, cs) :: rest =>
      if option_string_eqb k parent then (k, (cs ++ [c])%list) :: rest
      else (k, cs) :: setdefault_append parent c rest
  end.

Definition group_by_parent (cats : list (string * Category.t)) : by_parent_t :=
  fold_left (fun by_parent c =>
               setdefault_append (Category.parent_id (snd c)) c by_parent)
            cats [].

Definition list_categories : M by_parent_t :=
  _ <- require_db ;;
  cats <- get_categories 100 ;;
  ret (group_by_parent (map stringify cats)).

(** [by_parent[k]] *)
Definition lookup_parent (k : option string) (m : by_parent_t)
    : option (list (string * Category.t)) :=
  option_map snd (find (fun e => option_string_eqb (fst e) k) m).

(** ** Products *)

(** *** [ObjectId(s)] on a [str] (bson): accepted iff [len(s) == 24] and
    [bytes.fromhex(s)] succeeds; [fromhex] skips ASCII whitespace between
    byte pairs. *)
Definition is_py_space (c : ascii) : bool :=
  let n := nat_of_ascii c in ((n =? 32) || ((9 <=? n) && (n <=? 13)))%nat.

Definition is_hex (c : ascii) : bool :=
  let n := nat_of_ascii c in
  (((48 <=? n) && (n <=? 57)) || ((65 <=? n) && (n <=? 70))
   || ((97 <=? n) && (n <=? 102)))%nat.

Fixpoint fromhex_ok (s : string) : bool :=
  match s with
  | EmptyString => true
  | String c rest =>
      if is_py_space c then fromhex_ok rest
      else match rest with
           | String c2 rest' => is_hex c && is_hex c2 && fromhex_ok rest'
           | EmptyString => false
           end
  end.

Definition objectid_valid (s : string) : bool :=
  (String.length s =? 24)%nat && fromhex_ok s.

Definition create_product (prod : Product.t) : M string :=
  _ <- require_db ;;
  _ <- (if negb (String.eqb (Product.category_id prod) "")
           && negb (objectid_valid (Product.category_id prod))
        then raise (HTTPException 400 "Invalid category_id")
        else ret tt) ;;
  doc_id <- insert_product prod ;;
  ret doc_id.

(** [POST /products]: the body is validated against [Product] first. *)
Definition post_products (prod : Product.t) : M string :=
  if Product.valid prod then create_product prod
  else raise RequestValidationError.

(** *** MongoDB [$regex] with options ["i"]

    A PCRE search anywhere in the subject.  Modelled for patterns made of
    ASCII literal characters and [.] (any character but a newline); other
    patterns are outside the model ([None]).  Letters compare ignoring
    ASCII case. *)
Inductive ratom := RLit (c : ascii) | RAny.

Definition is_regex_meta (c : ascii) : bool :=
  existsb (Ascii.eqb c)
    ["\"; "^"; "$"; "."; "|"; "?"; "*"; "+"; "("; ")"; "["; "]"; "{"; "}"]%char.

Fixpoint parse_regex (q : string) : option (list ratom) :=
  match q with
  | EmptyString => Some []
  | String c q' =>
      if Ascii.eqb c "."%char then option_map (cons RAny) (parse_regex q')
      else if is_regex_meta c || (127 <? nat_of_ascii c)%nat then None
      else option_map (cons (RLit c)) (parse_regex q')
  end.

Definition lower (c : ascii) : ascii :=
  let n := nat_of_ascii c in
  if ((65 <=? n) && (n <=? 90))%nat then ascii_of_nat (n + 32) else c.

Definition atom_matches_i (a : ratom) (c : ascii) : bool :=
  match a with
  | RLit l => Ascii.eqb (lower l) (lower c)
  | RAny => negb (Ascii.eqb c "010"%char)
  end.

Fixpoint match_here_i (p : list ratom) (s : string) : bool :=
  match p, s with
  | [], _ => true
  | a :: p', String c s' => atom_matches_i a c && match_here_i p' s'
  | _ :: _, EmptyString => false
  end.

Fixpoint search_i (p : list ratom) (s : string) : bool :=
  match_here_i p s ||
  match s with
  | EmptyString => false
  | String _ s' => search_i p s'
  end.

Definition regex_search (pattern options subject : string) : option bool :=
  if String.eqb options "i"
  then option_map (fun p => search_i p subject) (parse_regex pattern)
  else None.

(** *** [list_products] *)

(** A value of [filter_dict]: a string for an exact match, or
    [{"$regex": pattern, "$options": options}]. *)
Inductive fvalue :=
| FStr (v : string)
| FRegex (pattern options : string).

Definition filter_t := list (string * fvalue).

(** The product fields the filters of [list_products] name. *)
Definition product_field (p : Product.t) (k : string) : option string :=
  if String.eqb k "category_id" then Some (Product.category_id p)
  else if String.eqb k "subcategory_id" then Product.subcategory_id p
  else if String.eqb k "name" then Some (Product.name p)
  else None.

Definition clause_matches (cl : string * fvalue) (p : Product.t) : option bool :=
  match snd cl with
  | FStr v => Some (option_string_eqb (product_field p (fst cl)) (Some v))
  | FRegex pat opts =>
      match product_field p (fst cl) with
      | Some subject => regex_search pat opts subject
      | None => Some false
      end
  end.

Definition doc_matches (f : filter_t) (p : Product.t) : option bool :=
  fold_right (fun cl acc =>
                match clause_matches cl p, acc with
                | Some b1, Some b2 => Some (b1 && b2)
                | _, _ => None
                end) (Some true) f.

Fixpoint filter_docs (f : filter_t) (ds : list (oid * Product.t))
    : option (list (oid * Product.t)) :=
  match ds with
  | [] => Some []
  | d :: ds' =>
      match doc_matches f (snd d), filter_docs f ds' with
      | Some b, Some r => Some (if b then d :: r else r)
      | _, _ => None
      end
  end.

(** [get_documents("product", filter_dict=f, limit=limit)], modelled from
    the spec as [get_categories] is. *)
Definition get_products (f : filter_t) (limit : Z) : M (list (oid * Product.t)) :=
  s <- require_db ;;
  match filter_docs f (products s) with
  | Some r => ret (get_documents_limit limit r)
  | None => raise Unmodelled
  end.

(** [if v: filter_dict[k] = mk(v)] for an optional string parameter. *)
Definition set_if (o : option string) (k : string) (mk : string -> fvalue)
    (filter_dict : filter_t) : filter_t :=
  match o with
  | Some v => if String.eqb v "" then filter_dict else (filter_dict ++ [(k, mk v)])%list
  | None => filter_dict
  end.

Definition build_filter (category_id subcategory_id q : option string) : filter_t :=
  let f1 := set_if category_id "category_id" FStr [] in
  let f2 := set_if subcategory_id "subcategory_id" FStr f1 in
  set_if q "name" (fun v => FRegex v "i") f2.

Definition list_products (category_id subcategory_id q : option string)
    (limit : Z) : M (list (string * Product.t)) :=
  _ <- require_db ;;
  let filter_dict := build_filter category_id subcategory_id q in
  prods <- get_products filter_dict limit ;;
  ret (map stringify prods).

(** ** Orders *)

Definition obind {A B} (m : outcome A) (k : A -> outcome B) : outcome B :=
  match m with Ok a => k a | Raise e => Raise e end.

Definition lift {A} (m : outcome A) : M A :=
  fun db => match m with Ok a => (Ok a, db) | Raise e => (Raise e, db) end.

(** An operand converted for mixed [int]/[float] arithmetic. *)
Definition to_float (x : pynum) : outcome float :=
  match x with
  | PInt z => match float_of_int z with Some f => Ok f | None => Raise OverflowError end
  | PFloat f => Ok f
  end.

Definition py_add (x y : pynum) : outcome pynum :=
  match x, y with
  | PInt a, PInt b => Ok (PInt (a + b))
  | _, _ => obind (to_float x) (fun fx => obind (to_float y) (fun fy =>
              Ok (PFloat (fadd fx fy))))
  end.

Definition py_mul (x y : pynum) : outcome pynum :=
  match x, y with
  | PInt a, PInt b => Ok (PInt (a * b))
  | _, _ => obind (to_float x) (fun fx => obind (to_float y) (fun fy =>
              Ok (PFloat (fmul fx fy))))
  end.

(** [sum(i.quantity * i.unit_price for i in items)], started at [acc]:
    each term is computed, then added, item by item. *)
Fixpoint sum_line_totals (acc : pynum) (items : list OrderItem.t) : outcome pynum :=
  match items with
  | [] => Ok acc
  | i :: rest =>
      obind (py_mul (PInt (OrderItem.quantity i)) (PFloat (OrderItem.unit_price i)))
        (fun t => obind (py_add acc t) (fun acc' => sum_line_totals acc' rest))
  end.

(** A [float] field of [Order] with [ge=0]: ints are converted, and the
    constraint is checked. *)
Definition order_float_field (x : pynum) : outcome float :=
  match x with
  | PInt z => match float_of_int z with Some f => Ok f | None => Raise ValidationError end
  | PFloat f => Ok f
  end.

Definition nonneg_field (x : pynum) : outcome float :=
  obind (order_float_field x) (fun f => if fge0 f then Ok f else Raise ValidationError).

Record PlaceOrderRequest := mkPlaceOrder {
  po_user_id : string;
  po_email : string;
  po_items : list OrderItem.t;
  po_notes : option string;
  po_shipping_name : option string;
  po_shipping_address : option string;
  po_shipping_phone : option string }.

(** [Order(...)]: built with [status="placed"]. *)
Definition make_order (payload : PlaceOrderRequest) (subtotal tax total : pynum)
    : outcome Order.t :=
  obind (nonneg_field subtotal) (fun fs =>
  obind (nonneg_field tax) (fun ft =>
  obind (nonneg_field total) (fun fT =>
  Ok (Order.mk (po_user_id payload) (po_email payload) (po_items payload)
               fs ft fT "placed" (po_notes payload) (po_shipping_name payload)
               (po_shipping_address payload) (po_shipping_phone payload))))).

(** [place_order] returns [{"order_id": ..., "total": total}]; the [print]
    is a log line only and leaves no state. *)
Definition place_order (payload : PlaceOrderRequest) : M (string * pynum) :=
  _ <- require_db ;;
  subtotal <- lift (sum_line_totals (PInt 0) (po_items payload)) ;;
  let tax := PInt 0 in
  total <- lift (py_add subtotal tax) ;;
  order <- lift (make_order payload subtotal tax total) ;;
  order_id <- insert_order order ;;
  ret (order_id, total).

(** [POST /orders]: the body is validated against [PlaceOrderRequest]
    (each item an [OrderItem]) before the handler runs. *)
Definition post_orders (payload : PlaceOrderRequest) : M (string * pynum) :=
  if forallb OrderItem.valid (po_items payload) then place_order payload
  else raise RequestValidationError.

(** ** [POST /categories] *)

(** [Category] has no field constraints: any payload reaches the handler. *)
Definition create_category (cat : Category.t) : M string :=
  _ <- require_db ;;
  new_id <- insert_category cat ;;
  ret new_id.

(** ** [GET /test]

    Here strings are the UTF-8 bytes of the Python [str] values. *)

(** [os.getenv(name)] is the environment value, if any; it is truthy when
    non-empty. *)
Definition truthy (o : option string) : bool :=
  match o with
  | Some v => negb (String.eqb v "")
  | None => false
  end.

(** A UTF-8 continuation byte ([10xxxxxx]). *)
Definition is_utf8_cont (c : ascii) : bool :=
  let n := nat_of_ascii c in ((128 <=? n) && (n <? 192))%nat.

(** [s[:n]] on a [str]: the first [n] code points of its UTF-8 bytes. *)
Fixpoint utf8_take (n : nat) (s : string) : string :=
  match s with
  | EmptyString => EmptyString
  | String c rest =>
      if is_utf8_cont c then String c (utf8_take n rest)
      else match n with
           | O => EmptyString
           | S n' => String c (utf8_take n' rest)
           end
  end.

(** What [db.list_collection_names()] gives: the names, or [str(e)] of the
    exception it raises. *)
Inductive listing :=
| Listed (names : list string)
| ListError (msg : string).

(** The [response] dict of [test_database]. *)
Record TestResponse := mkTest {
  backend : string;
  database : string;
  database_url : option string;
  database_name : option string;
  connection_status : string;
  collections : list string }.

(** [test_database()], given the store, [db.name] ([None] when [db] has no
    attribute [name]), the listing, and the variables [DATABASE_URL] and
    [DATABASE_NAME] of the environment.  Nothing in the outer [try] raises
    but [list_collection_names], which has its own handler. *)
Definition test_database (db : option store) (db_name : option string)
    (list_collection_names : listing) (DATABASE_URL DATABASE_NAME : option string)
    : TestResponse :=
  let response :=
    match db with
    | Some _ =>
        let name := match db_name with Some n => n | None => "✅ Connected" end in
        match list_collection_names with
        | Listed cols =>
            mkTest "✅ Running" "✅ Connected & Working" (Some "✅ Configured")
                   (Some name) "Connected" (firstn 10 cols)
        | ListError e =>
            mkTest "✅ Running" ("⚠️  Connected but Error: " ++ utf8_take 50 e)
                   (Some "✅ Configured") (Some name) "Connected" []
        end
    | None =>
        mkTest "✅ Running" "⚠️  Available but not initialized" None None
               "Not Connected" []
    end in
  mkTest (backend response) (database response)
         (Some (if truthy DATABASE_URL then "✅ Set" else "❌ Not Set"))
         (Some (if truthy DATABASE_NAME then "✅ Set" else "❌ Not Set"))
         (connection_status response) (collections response).

(** * Specification-side definitions *)

(** Case-insensitive substring test on ASCII text. *)
Fixpoint lower_string (s : string) : string :=
  match s with
  | EmptyString => EmptyString
  | String c s' => String (lower c) (lower_string s')
  end.

Fixpoint str_prefix (p s : string) : bool :=
  match p, s with
  | EmptyString, _ => true
  | String a p', String b s' => Ascii.eqb a b && str_prefix p' s'
  | String _ _, EmptyString => false
  end.

Fixpoint str_contains (p s : string) : bool :=
  str_prefix p s ||
  match s with
  | EmptyString => false
  | String _ s' => str_contains p s'
  end.

Definition ci_contains (needle hay : string) : bool :=
  str_contains (lower_string needle) (lower_string hay).

(** A [q] with no regular-expression syntax: ASCII characters, none of
    them a metacharacter. *)
Definition regex_literal (q : string) : bool :=
  forallb (fun c => negb (is_regex_meta c) && (nat_of_ascii c <? 128)%nat)
          (list_ascii_of_string q).

(** The categories A (a root), B (child of A) and C (child of B). *)
Definition cat_A := Category.mk "A" None None.
Definition cat_B := Category.mk "B" (Some (oid_str 0%N)) None.
Definition cat_C := Category.mk "C" (Some (oid_str 1%N)) None.
Definition abc_store : store :=
  mkStore [] [(0%N, cat_A); (1%N, cat_B); (2%N, cat_C)] [] [] 3%N.

Definition empty_store : store := mkStore [] [] [] [] 0%N.

(** A product whose [category_id] is the empty string. *)
Definition cable_no_category : Product.t :=
  Product.mk "USB cable" None fzero None None "" None true None.

Definition cable_bad_category : Product.t :=
  Product.mk "USB cable" None fzero None None "not-a-valid-id" None true None.

Definition empty_order_request : PlaceOrderRequest :=
  mkPlaceOrder "u1" "ada@example.com" [] None None None None.

(** Product listing as the spec words it: exact matches for the given
    [category_id] and [subcategory_id], a case-insensitive substring match
    of [q] on the name; a parameter that is absent (or, as in the source's
    truthiness tests, empty) imposes nothing. *)
Definition spec_product_match (category_id subcategory_id q : option string)
    (p : Product.t) : bool :=
  match category_id with
  | Some v => String.eqb v "" || String.eqb (Product.category_id p) v
  | None => true
  end &&
  match subcategory_id with
  | Some v => String.eqb v "" || option_string_eqb (Product.subcategory_id p) (Some v)
  | None => true
  end &&
  match q with
  | Some w => String.eqb w "" || ci_contains w (Product.name p)
  | None => true
  end.

Definition usb_c_hub : Product.t :=
  Product.mk "USB-C hub" None fzero None None "" None true None.
Definition hdmi_cable : Product.t :=
  Product.mk "HDMI Cable" None fzero None None "" None true None.
Definition catalog_store : store :=
  mkStore [] [] [(0%N, usb_c_hub); (1%N, hdmi_cable)] [] 2%N.

(** [m * 2 ** e] as a float literal: [10.0] is [float_lit 10 0], [5.5] is
    [float_lit 11 (-1)], [25.5] is [float_lit 51 (-1)]. *)
Definition float_lit (m e : Z) : float := binary_normalize prec emax m e false.

(** A float that is not NaN and not below zero ([-0.0] included). *)
Definition nonnegf (f : float) : bool :=
  match f with
  | S754_nan => false
  | S754_zero _ => true
  | S754_infinity s => negb s
  | S754_finite s _ _ => negb s
  end.

(** The spec's order arithmetic: [quantity * unit_price] per item, summed
    from [0]. *)
Definition line_total (i : OrderItem.t) : float :=
  match float_of_int (OrderItem.quantity i) with
  | Some q => fmul q (OrderItem.unit_price i)
  | None => S754_nan
  end.

Definition fsum (xs : list float) : float := fold_left fadd xs fzero.

Definition example_order_request : PlaceOrderRequest :=
  mkPlaceOrder "u1" "ada@example.com"
    [OrderItem.mk "p1" "Resistor pack" 2 (float_lit 10 0);
     OrderItem.mk "p2" "LED" 1 (float_lit 11 (-1))] None None None None.

(** An item whose quantity, [2 ** 1024], does not convert to a float. *)
Definition huge_order_request : PlaceOrderRequest :=
  mkPlaceOrder "u1" "ada@example.com"
    [OrderItem.mk "p1" "Resistor" (2 ^ 1024) (float_lit 1 0)] None None None None.

(** The emails of the stored users, in store order. *)
Definition user_emails (s : store) : list string :=
  map (fun d => User.email (snd d)) (users s).

(** The number of code points of a UTF-8 string. *)
Fixpoint utf8_length (s : string) : nat :=
  match s with
  | EmptyString => O
  | String c rest => if is_utf8_cont c then utf8_length rest else S (utf8_length rest)
  end.

(** * Lemmas *)

Lemma find_app {A} (f : A -> bool) (l1 l2 : list A) :
  find f (l1 ++ l2) = match find f l1 with Some x => Some x | None => find f l2 end.
Proof. induction l1 as [|a l1 IH]; simpl; [reflexivity|]. destruct (f a); auto. Qed.

Lemma find_user_exists (s : store) (e : string) id u :
  In (id, u) (users s) -> User.email u = e ->
  exists d, find_user_by_email s e = Some d.
Proof.
  unfold find_user_by_email. intros Hin He.
  destruct (find _ (users s)) as [d|] eqn:Hf; [eauto|].
  apply (find_none _ _ Hf) in Hin. simpl in Hin.
  rewrite He, String.eqb_refl in Hin. discriminate.
Qed.

Lemma option_string_eqb_spec (a b : option string) :
  option_string_eqb a b = true <-> a = b.
Proof.
  destruct a, b; simpl; split; intro H; try discriminate; try reflexivity.
  - apply String.eqb_eq in H. now subst.
  - inversion H. apply String.eqb_refl.
Qed.

Lemma option_string_eqb_sym (a b : option string) :
  option_string_eqb a b = option_string_eqb b a.
Proof.
  destruct (option_string_eqb a b) eqn:H1, (option_string_eqb b a) eqn:H2; auto.
  - apply option_string_eqb_spec in H1. subst.
    rewrite <- H2. symmetry. apply option_string_eqb_spec. reflexivity.
  - apply option_string_eqb_spec in H2. subst.
    rewrite <- H1. apply option_string_eqb_spec. reflexivity.
Qed.

Lemma lookup_setdefault_append (k p : option string) c m :
  lookup_parent k (setdefault_append p c m) =
  if option_string_eqb p k
  then Some (match lookup_parent k m with Some l => (l ++ [c])%list | None => [c] end)
  else lookup_parent k m.
Proof.
  induction m as [|[k' cs] rest IH]; unfold lookup_parent in *; simpl.
  - destruct (option_string_eqb p k); reflexivity.
  - destruct (option_string_eqb k' p) eqn:Hkp; simpl.
    + apply option_string_eqb_spec in Hkp. subst k'.
      destruct (option_string_eqb p k); reflexivity.
    + destruct (option_string_eqb k' k) eqn:Hkk; simpl.
      * apply option_string_eqb_spec in Hkk. subst k'.
        rewrite option_string_eqb_sym, Hkp. reflexivity.
      * exact IH.
Qed.

Definition has_parent (k : option string) (c : string * Category.t) : bool :=
  option_string_eqb (Category.parent_id (snd c)) k.

Lemma lookup_group_from (k : option string) cats m :
  lookup_parent k
    (fold_left (fun by_parent c =>
                  setdefault_append (Category.parent_id (snd c)) c by_parent)
               cats m) =
  match lookup_parent k m with
  | Some l => Some (l ++ filter (has_parent k) cats)%list
  | None => if existsb (has_parent k) cats then Some (filter (has_parent k) cats)
            else None
  end.
Proof.
  revert m. induction cats as [|c cats IH]; intro m; simpl.
  - destruct (lookup_parent k m); [rewrite app_nil_r|]; reflexivity.
  - rewrite IH, lookup_setdefault_append.
    change (option_string_eqb (Category.parent_id (snd c)) k) with (has_parent k c).
    destruct (has_parent k c); simpl.
    + destruct (lookup_parent k m); simpl; [|reflexivity].
      rewrite <- app_assoc. reflexivity.
    + reflexivity.
Qed.

Lemma forallb_false_exists {A} (f : A -> bool) (l : list A) :
  forallb f l = false -> exists x, In x l /\ f x = false.
Proof.
  induction l as [|a l IH]; simpl; [discriminate|].
  destruct (f a) eqn:Ha; simpl.
  - intro H. destruct (IH H) as [x [Hx Hf]]. eauto.
  - intros _. eauto.
Qed.

Lemma py_add_raise x y e : py_add x y = Raise e -> e = OverflowError.
Proof.
  destruct x as [a|fa], y as [b|fb]; simpl; try discriminate;
    unfold to_float; simpl;
    repeat match goal with
           | |- context [float_of_int ?z] => destruct (float_of_int z)
           end; simpl; congruence.
Qed.

Lemma py_mul_raise x y e : py_mul x y = Raise e -> e = OverflowError.
Proof.
  destruct x as [a|fa], y as [b|fb]; simpl; try discriminate;
    unfold to_float; simpl;
    repeat match goal with
           | |- context [float_of_int ?z] => destruct (float_of_int z)
           end; simpl; congruence.
Qed.

Lemma sum_line_totals_raise items : forall acc e,
  sum_line_totals acc items = Raise e -> e = OverflowError.
Proof.
  induction items as [|i rest IH]; intros acc e H; cbn [sum_line_totals] in H;
    [discriminate|].
  destruct (py_mul (PInt (OrderItem.quantity i)) (PFloat (OrderItem.unit_price i)))
    as [t|e1] eqn:Hm; cbn [obind] in H;
    [|inversion H; subst; eapply py_mul_raise; eauto].
  destruct (py_add acc t) as [a|e2] eqn:Ha; cbn [obind] in H; [eapply IH; eauto|].
  inversion H; subst. eapply py_add_raise; eauto.
Qed.

Lemma make_order_raise payload x y z e :
  make_order payload x y z = Raise e -> e = ValidationError.
Proof.
  unfold make_order, nonneg_field, order_float_field, obind.
  repeat match goal with
         | |- context [match ?x with PInt _ => _ | PFloat _ => _ end] => destruct x
         | |- context [float_of_int ?z] => destruct (float_of_int z)
         | |- context [fge0 ?f] => destruct (fge0 f)
         end; intro H; congruence.
Qed.

(** The handler itself never raises the request validation error. *)
Lemma place_order_not_request_error payload db :
  fst (place_order payload db) <> Raise RequestValidationError.
Proof.
  unfold place_order, bind, require_db, lift, ret.
  destruct db as [s|]; simpl; [|discriminate].
  destruct (sum_line_totals (PInt 0) (po_items payload)) as [st|e] eqn:Hs; simpl.
  2: { apply sum_line_totals_raise in Hs. subst. discriminate. }
  destruct (py_add st (PInt 0)) as [tt'|e] eqn:Ht; simpl.
  2: { apply py_add_raise in Ht. subst. discriminate. }
  destruct (make_order payload st (PInt 0) tt') as [o|e] eqn:Ho; simpl.
  2: { apply make_order_raise in Ho. subst. discriminate. }
  discriminate.
Qed.

Lemma match_here_literal (w s : string) :
  match_here_i (map RLit (list_ascii_of_string w)) s =
  str_prefix (lower_string w) (lower_string s).
Proof.
  revert s. induction w as [|c w IH]; intro s; [reflexivity|].
  destruct s as [|d s]; simpl; [reflexivity|]. rewrite IH. reflexivity.
Qed.

Lemma search_literal (w s : string) :
  search_i (map RLit (list_ascii_of_string w)) s =
  str_contains (lower_string w) (lower_string s).
Proof.
  induction s as [|d s IH]; simpl; rewrite match_here_literal; [reflexivity|].
  simpl. rewrite IH. reflexivity.
Qed.

Lemma parse_literal (w : string) :
  regex_literal w = true -> parse_regex w = Some (map RLit (list_ascii_of_string w)).
Proof.
  unfold regex_literal. induction w as [|c w IH]; simpl; [reflexivity|].
  intro H. apply andb_true_iff in H. destruct H as [Hc Hw].
  apply andb_true_iff in Hc. destruct Hc as [Hm Ha].
  apply negb_true_iff in Hm.
  destruct (Ascii.eqb c "."%char) eqn:Hd.
  - apply Ascii.eqb_eq in Hd. subst c. discriminate.
  - rewrite Hm. apply Nat.ltb_lt in Ha.
    replace (127 <? nat_of_ascii c)%nat with false
      by (symmetry; apply Nat.ltb_ge; lia).
    simpl. rewrite (IH Hw). reflexivity.
Qed.

Lemma doc_matches_build_filter category_id subcategory_id q p :
  (forall w, q = Some w -> regex_literal w = true) ->
  doc_matches (build_filter category_id subcategory_id q) p =
  Some (spec_product_match category_id subcategory_id q p).
Proof.
  intro Hq.
  assert (Hname : forall w, q = Some w ->
            regex_search w "i" (Product.name p) = Some (ci_contains w (Product.name p))).
  { intros w Hw. unfold regex_search. simpl.
    rewrite (parse_literal w (Hq w Hw)). simpl. rewrite search_literal. reflexivity. }
  unfold build_filter, set_if, spec_product_match.
  destruct category_id as [v|]; try destruct (String.eqb v "") eqn:Ev;
  destruct subcategory_id as [v'|]; try destruct (String.eqb v' "") eqn:Ev';
  destruct q as [w|]; try destruct (String.eqb w "") eqn:Ew;
  simpl; unfold doc_matches, clause_matches, product_field; simpl;
  try rewrite (Hname w eq_refl); simpl;
  rewrite ?andb_true_r, ?andb_assoc; reflexivity.
Qed.

Lemma in_firstn {A} (n : nat) (l : list A) x : In x (firstn n l) -> In x l.
Proof. intro H. rewrite <- (firstn_skipn n l). apply in_or_app. now left. Qed.

Lemma filter_docs_spec (f : filter_t) (P : Product.t -> bool) ds :
  (forall p, doc_matches f p = Some (P p)) ->
  filter_docs f ds = Some (filter (fun d => P (snd d)) ds).
Proof.
  intro H. induction ds as [|d ds IH]; simpl; [reflexivity|].
  rewrite H, IH. reflexivity.
Qed.

(** ** Rounding lemmas for [SpecFloat] *)

Lemma fge0_nonnegf (f : float) : fge0 f = nonnegf f.
Proof. destruct f as [b|b| |b m e]; try destruct b; reflexivity. Qed.

Lemma shr_1_div2 (mrs : shr_record) :
  0 <= shr_m mrs -> shr_m (shr_1 mrs) = shr_m mrs / 2.
Proof.
  destruct mrs as [m r s0]. simpl. intro H. rewrite <- Z.div2_div.
  destruct m as [|p|p]; [reflexivity| |lia].
  destruct p; reflexivity.
Qed.

Lemma iter_shr_1_div (p : positive) : forall mrs,
  0 <= shr_m mrs -> shr_m (iter_pos shr_1 p mrs) = shr_m mrs / 2 ^ Zpos p.
Proof.
  induction p as [p IH|p IH|]; intros mrs H; cbn [iter_pos];
    try assert (Hp : 0 < 2 ^ Zpos p) by (apply Z.pow_pos_nonneg; lia).
  - assert (H1 : 0 <= shr_m (shr_1 mrs)) by (rewrite shr_1_div2; [apply Z.div_pos|]; lia).
    assert (H2 : 0 <= shr_m (iter_pos shr_1 p (shr_1 mrs)))
      by (rewrite IH by exact H1; apply Z.div_pos; [exact H1|apply Z.pow_pos_nonneg; lia]).
    rewrite IH by exact H2. rewrite IH by exact H1. rewrite shr_1_div2 by exact H.
    rewrite !Z.div_div by lia.
    f_equal. rewrite (Pos2Z.inj_xI p).
    replace (2 * Zpos p + 1) with (Zpos p + Zpos p + 1) by lia.
    rewrite !Z.pow_add_r by lia. ring.
  - assert (H2 : 0 <= shr_m (iter_pos shr_1 p mrs))
      by (rewrite IH by exact H; apply Z.div_pos; [exact H|apply Z.pow_pos_nonneg; lia]).
    rewrite IH by exact H2. rewrite IH by exact H.
    rewrite Z.div_div by lia.
    f_equal. rewrite (Pos2Z.inj_xO p).
    replace (2 * Zpos p) with (Zpos p + Zpos p) by lia.
    rewrite Z.pow_add_r by lia. ring.
  - apply shr_1_div2. exact H.
Qed.

Lemma digits2_pos_bound (m : positive) : 2 ^ (Zpos (digits2_pos m) - 1) <= Zpos m.
Proof.
  induction m as [m IH|m IH|]; cbn [digits2_pos]; [| |simpl; lia];
    rewrite Pos2Z.inj_succ; replace (Z.succ (Zpos (digits2_pos m)) - 1)
      with (Z.succ (Zpos (digits2_pos m) - 1)) by lia;
    rewrite Z.pow_succ_r by lia;
    [rewrite (Pos2Z.inj_xI m) | rewrite (Pos2Z.inj_xO m)]; lia.
Qed.

Lemma shr_record_of_loc_m m l : shr_m (shr_record_of_loc m l) = m.
Proof. destruct l as [|[| |]]; reflexivity. Qed.

Lemma shr_fexp_nonneg m e l :
  0 <= m -> 0 <= shr_m (fst (shr_fexp prec emax m e l)).
Proof.
  intro H. unfold shr_fexp, shr.
  destruct (fexp prec emax (Zdigits2 m + e) - e) as [|p|p]; simpl;
    rewrite ?iter_shr_1_div; rewrite ?shr_record_of_loc_m; try lia.
  apply Z.div_pos; [lia|apply Z.pow_pos_nonneg; lia].
Qed.

Lemma shr_fexp_pos m e l :
  0 < m -> emin prec emax <= e ->
  0 < shr_m (fst (shr_fexp prec emax m e l)) /\ e <= snd (shr_fexp prec emax m e l).
Proof.
  intros Hm He. destruct m as [|m|m]; try lia.
  unfold shr_fexp, shr.
  assert (Hb := digits2_pos_bound m).
  destruct (fexp prec emax (Zdigits2 (Zpos m) + e) - e) as [|p|p] eqn:Hn; simpl;
    rewrite ?shr_record_of_loc_m; try lia.
  rewrite iter_shr_1_div by (rewrite shr_record_of_loc_m; lia).
  rewrite shr_record_of_loc_m.
  unfold fexp, emin, prec, emax in *. simpl Zdigits2 in Hn.
  assert (Hp : Zpos p <= Zpos (digits2_pos m) - 1) by lia.
  split; [|lia].
  assert (Hpow : 2 ^ Zpos p <= Zpos m).
  { eapply Z.le_trans; [|exact Hb]. apply Z.pow_le_mono_r; lia. }
  apply Z.div_str_pos. split; [apply Z.pow_pos_nonneg; lia|exact Hpow].
Qed.

Lemma round_nearest_even_ge mx lx : mx <= round_nearest_even mx lx.
Proof.
  destruct lx as [|[| |]]; simpl; try lia.
  destruct (Z.even mx); lia.
Qed.

Lemma binary_round_aux_nonneg mx ex lx :
  0 <= mx -> nonnegf (binary_round_aux prec emax false mx ex lx) = true.
Proof.
  intro H. unfold binary_round_aux.
  destruct (shr_fexp prec emax mx ex lx) as [mrs' e'] eqn:H1.
  assert (H1' := shr_fexp_nonneg mx ex lx H). rewrite H1 in H1'. simpl in H1'.
  assert (Hr := round_nearest_even_ge (shr_m mrs') (loc_of_shr_record mrs')).
  destruct (shr_fexp prec emax (round_nearest_even (shr_m mrs') (loc_of_shr_record mrs'))
              e' loc_Exact) as [mrs'' e''] eqn:H2.
  assert (H2' := shr_fexp_nonneg (round_nearest_even (shr_m mrs') (loc_of_shr_record mrs'))
                   e' loc_Exact ltac:(lia)).
  rewrite H2 in H2'. simpl in H2'.
  destruct (shr_m mrs'') as [|p|p]; [reflexivity| |lia].
  destruct (e'' <=? emax - prec); reflexivity.
Qed.

Lemma binary_round_aux_pos mx ex lx :
  0 < mx -> emin prec emax <= ex ->
  exists m e, binary_round_aux prec emax false mx ex lx = S754_finite false m e \/
              binary_round_aux prec emax false mx ex lx = S754_infinity false.
Proof.
  intros H He. unfold binary_round_aux.
  destruct (shr_fexp prec emax mx ex lx) as [mrs' e'] eqn:H1.
  assert (H1' := shr_fexp_pos mx ex lx H He). rewrite H1 in H1'. simpl in H1'.
  assert (Hr := round_nearest_even_ge (shr_m mrs') (loc_of_shr_record mrs')).
  destruct (shr_fexp prec emax (round_nearest_even (shr_m mrs') (loc_of_shr_record mrs'))
              e' loc_Exact) as [mrs'' e''] eqn:H2.
  assert (H2' := shr_fexp_pos (round_nearest_even (shr_m mrs') (loc_of_shr_record mrs'))
                   e' loc_Exact ltac:(lia) ltac:(lia)).
  rewrite H2 in H2'. simpl in H2'.
  destruct (shr_m mrs'') as [|p|p]; try lia.
  destruct (e'' <=? emax - prec).
  - exists p, e''. left. reflexivity.
  - exists 1%positive, 0. right. reflexivity.
Qed.

Lemma binary_round_nonneg m e : nonnegf (binary_round prec emax false m e) = true.
Proof.
  unfold binary_round.
  destruct (shl_align m e _) as [mz ez].
  apply binary_round_aux_nonneg. lia.
Qed.

Lemma float_of_int_pos (q : Z) (f : float) :
  1 <= q -> float_of_int q = Some f -> exists m e, f = S754_finite false m e.
Proof.
  intros Hq Hf. destruct q as [|q|q]; try lia.
  unfold float_of_int, binary_normalize, binary_round in Hf.
  destruct (shl_align q 0 (fexp prec emax (Zpos (digits2_pos q) + 0))) as [mz ez] eqn:Hs.
  assert (Hez : emin prec emax <= ez).
  { unfold shl_align in Hs.
    assert (Hx := Z.le_max_r (Zpos (digits2_pos q) + 0 - prec) (emin prec emax)).
    unfold fexp in Hs.
    destruct (Z.max (Zpos (digits2_pos q) + 0 - prec) (emin prec emax) - 0);
      inversion Hs; subst; unfold emin, prec, emax in *; lia. }
  destruct (binary_round_aux_pos (Zpos mz) ez loc_Exact ltac:(lia) Hez) as [m [e [Hr|Hr]]];
    rewrite Hr in Hf; inversion Hf; eauto.
Qed.

Lemma fadd_nonneg x y : nonnegf x = true -> nonnegf y = true -> nonnegf (fadd x y) = true.
Proof.
  unfold fadd.
  destruct x as [sx|sx| |sx mx ex], y as [sy|sy| |sy my ey]; simpl; intros Hx Hy;
    try discriminate; try reflexivity;
    try (destruct sx; destruct sy; simpl in *; try discriminate; reflexivity).
  destruct sx, sy; try discriminate. simpl. apply binary_round_nonneg.
Qed.

Lemma fmul_nonneg mx ex y :
  nonnegf y = true -> nonnegf (fmul (S754_finite false mx ex) y) = true.
Proof.
  unfold fmul. destruct y as [sy|sy| |sy my ey]; simpl; intro Hy;
    try discriminate; try reflexivity.
  - destruct sy; [discriminate|reflexivity].
  - destruct sy; [discriminate|]. apply binary_round_aux_nonneg. lia.
Qed.

(** ** Order totals *)

Lemma sum_line_totals_float items : forall a,
  Forall (fun i => float_of_int (OrderItem.quantity i) <> None) items ->
  sum_line_totals (PFloat a) items =
  Ok (PFloat (fold_left fadd (map line_total items) a)).
Proof.
  induction items as [|i rest IH]; intros a Hc; [reflexivity|].
  inversion Hc as [|? ? Hi Hr]; subst.
  destruct (float_of_int (OrderItem.quantity i)) as [fq|] eqn:Hf; [|contradiction].
  cbn [sum_line_totals map fold_left py_mul py_add to_float obind].
  rewrite Hf. cbn [obind to_float]. replace (line_total i) with (fmul fq (OrderItem.unit_price i))
    by (unfold line_total; rewrite Hf; reflexivity). apply IH. exact Hr.
Qed.

Lemma sum_line_totals_start items :
  Forall (fun i => float_of_int (OrderItem.quantity i) <> None) items ->
  sum_line_totals (PInt 0) items =
  Ok (match items with
      | [] => PInt 0
      | _ :: _ => PFloat (fsum (map line_total items))
      end).
Proof.
  intro Hc. destruct items as [|i rest]; [reflexivity|].
  inversion Hc as [|? ? Hi Hr]; subst.
  destruct (float_of_int (OrderItem.quantity i)) as [fq|] eqn:Hf; [|contradiction].
  cbn [sum_line_totals py_mul py_add to_float obind].
  rewrite Hf. change (float_of_int 0) with (Some fzero). cbn [obind to_float].
  rewrite sum_line_totals_float by exact Hr.
  unfold fsum. cbn [map fold_left]. replace (line_total i) with (fmul fq (OrderItem.unit_price i))
    by (unfold line_total; rewrite Hf; reflexivity). reflexivity.
Qed.

Lemma fold_fadd_nonneg xs : forall a,
  nonnegf a = true -> Forall (fun x => nonnegf x = true) xs ->
  nonnegf (fold_left fadd xs a) = true.
Proof.
  induction xs as [|x xs IH]; intros a Ha Hxs; [exact Ha|].
  inversion Hxs; subst. simpl. apply IH; [apply fadd_nonneg|]; assumption.
Qed.

Lemma line_total_nonneg i :
  OrderItem.valid i = true -> float_of_int (OrderItem.quantity i) <> None ->
  nonnegf (line_total i) = true.
Proof.
  unfold OrderItem.valid. intros Hv Hc.
  apply andb_true_iff in Hv. destruct Hv as [Hq Hp]. apply Z.leb_le in Hq.
  unfold line_total.
  destruct (float_of_int (OrderItem.quantity i)) as [fq|] eqn:Hf; [|contradiction].
  destruct (float_of_int_pos _ _ Hq Hf) as [m [e ->]].
  apply fmul_nonneg. rewrite <- fge0_nonnegf. exact Hp.
Qed.

(** ** Lemmas for the further properties *)

Lemma NoDup_snoc {A} (l : list A) (x : A) : NoDup l -> ~ In x l -> NoDup (l ++ [x]).
Proof.
  induction 1 as [|y l Hy Hl IH]; intro Hx; simpl.
  - constructor; [intros []|constructor].
  - constructor.
    + rewrite in_app_iff. intros [H|[H|[]]]; [contradiction|].
      subst. apply Hx. left. reflexivity.
    + apply IH. intro H. apply Hx. right. exact H.
Qed.

Lemma find_user_none_not_in (s : store) (e : string) :
  find_user_by_email s e = None -> ~ In e (user_emails s).
Proof.
  unfold find_user_by_email, user_emails. intros Hf Hin.
  apply in_map_iff in Hin. destruct Hin as [d [He Hd]].
  apply (find_none _ _ Hf) in Hd. rewrite He, String.eqb_refl in Hd. discriminate.
Qed.

Lemma keys_setdefault_append p c m :
  map fst (setdefault_append p c m) =
  if existsb (fun k => option_string_eqb k p) (map fst m) then map fst m
  else (map fst m ++ [p])%list.
Proof.
  induction m as [|[k cs] rest IH]; simpl; [reflexivity|].
  destruct (option_string_eqb k p) eqn:E; simpl; [reflexivity|].
  rewrite IH. destruct (existsb _ (map fst rest)); reflexivity.
Qed.

Lemma nodup_setdefault_append p c m :
  NoDup (map fst m) -> NoDup (map fst (setdefault_append p c m)).
Proof.
  intro H. rewrite keys_setdefault_append.
  destruct (existsb _ (map fst m)) eqn:E; [exact H|].
  apply NoDup_snoc; [exact H|]. intro Hin.
  assert (Hx : existsb (fun k => option_string_eqb k p) (map fst m) = true).
  { apply existsb_exists. exists p. split; [exact Hin|].
    apply option_string_eqb_spec. reflexivity. }
  congruence.
Qed.

Lemma perm_setdefault_append p c m :
  Permutation (concat (map snd (setdefault_append p c m))) (concat (map snd m) ++ [c]).
Proof.
  induction m as [|[k cs] rest IH]; simpl; [apply Permutation_refl|].
  destruct (option_string_eqb k p); simpl.
  - rewrite <- !app_assoc. apply Permutation_app_head. simpl.
    apply Permutation_cons_append.
  - rewrite <- app_assoc. apply Permutation_app_head. exact IH.
Qed.

Lemma group_from_invariant cats : forall m,
  NoDup (map fst m) ->
  NoDup (map fst (fold_left (fun by_parent c =>
            setdefault_append (Category.parent_id (snd c)) c by_parent) cats m)) /\
  Permutation
    (concat (map snd (fold_left (fun by_parent c =>
            setdefault_append (Category.parent_id (snd c)) c by_parent) cats m)))
    (concat (map snd m) ++ cats).
Proof.
  induction cats as [|c cats IH]; intros m Hm; simpl.
  - rewrite app_nil_r. split; [exact Hm|apply Permutation_refl].
  - destruct (IH (setdefault_append (Category.parent_id (snd c)) c m)
                 (nodup_setdefault_append _ _ _ Hm)) as [H1 H2].
    split; [exact H1|]. eapply Permutation_trans; [exact H2|].
    replace (concat (map snd m) ++ c :: cats)%list
      with ((concat (map snd m) ++ [c]) ++ cats)%list
      by (rewrite <- app_assoc; reflexivity).
    apply Permutation_app_tail. apply perm_setdefault_append.
Qed.

Lemma hex_digit_hex (d : N) :
  (d < 16)%N -> is_hex (hex_digit d) = true /\ is_py_space (hex_digit d) = false.
Proof.
  intro H.
  assert (Hd : (d = 0 \/ d = 1 \/ d = 2 \/ d = 3 \/ d = 4 \/ d = 5 \/ d = 6 \/ d = 7 \/
                d = 8 \/ d = 9 \/ d = 10 \/ d = 11 \/ d = 12 \/ d = 13 \/ d = 14 \/
                d = 15)%N) by lia.
  repeat (destruct Hd as [Hd|Hd]; [subst d; split; reflexivity|]).
  subst d. split; reflexivity.
Qed.

Lemma hex_fixed_length k : forall n acc,
  String.length (hex_fixed k n acc) = (k + String.length acc)%nat.
Proof.
  induction k as [|k IH]; intros n acc; simpl; [reflexivity|].
  rewrite IH. simpl. lia.
Qed.

Lemma hex_fixed_fromhex k : forall n acc,
  fromhex_ok acc = true -> fromhex_ok (hex_fixed (2 * k) n acc) = true.
Proof.
  induction k as [|k IH]; intros n acc H; [exact H|].
  replace (2 * S k)%nat with (S (S (2 * k))) by lia.
  cbn [hex_fixed]. apply IH.
  destruct (hex_digit_hex ((n / 16) mod 16)) as [H1 S1];
    [apply N.mod_lt; discriminate|].
  destruct (hex_digit_hex (n mod 16)) as [H0 S0]; [apply N.mod_lt; discriminate|].
  cbn [fromhex_ok]. rewrite S1, H1, H0, H. reflexivity.
Qed.

(** [str(ObjectId)] is accepted by [ObjectId(...)]. *)
Lemma oid_str_valid (n : oid) : objectid_valid (oid_str n) = true.
Proof.
  unfold objectid_valid, oid_str. rewrite hex_fixed_length.
  change (hex_fixed 24 n EmptyString) with (hex_fixed (2 * 12) n EmptyString).
  rewrite hex_fixed_fromhex by reflexivity. reflexivity.
Qed.

(** A payload that passes [Product] validation with a well-formed
    [category_id] is inserted. *)
Lemma create_product_inserts (s : store) (prod : Product.t) :
  Product.valid prod = true ->
  objectid_valid (Product.category_id prod) = true ->
  post_products prod (Some s) =
    (Ok (oid_str (next_oid s)),
     Some (mkStore (users s) (categories s) ((products s ++ [(next_oid s, prod)])%list)
                   (orders s) (N.succ (next_oid s)))).
Proof.
  intros Hv Hf. unfold post_products. rewrite Hv.
  unfold create_product, bind, require_db. cbn beta iota.
  rewrite Hf. destruct (String.eqb (Product.category_id prod) ""); reflexivity.
Qed.

Lemma sum_line_totals_conv items : forall acc v,
  sum_line_totals acc items = Ok v ->
  Forall (fun i => float_of_int (OrderItem.quantity i) <> None) items.
Proof.
  induction items as [|i rest IH]; intros acc v H; [constructor|].
  cbn [sum_line_totals py_mul to_float obind] in H.
  destruct (float_of_int (OrderItem.quantity i)) as [fq|] eqn:Hf;
    cbn [obind] in H; [|discriminate].
  constructor; [congruence|].
  destruct (py_add acc (PFloat (fmul fq (OrderItem.unit_price i)))) as [a|e];
    cbn [obind] in H; [|discriminate].
  eapply IH. exact H.
Qed.

Lemma conv_or_overflow (items : list OrderItem.t) :
  Forall (fun i => float_of_int (OrderItem.quantity i) <> None) items \/
  exists i, In i items /\ float_of_int (OrderItem.quantity i) = None.
Proof.
  induction items as [|i rest IH]; [left; constructor|].
  destruct (float_of_int (OrderItem.quantity i)) eqn:Hf.
  - destruct IH as [H|[j [Hj Hn]]].
    + left. constructor; [congruence|exact H].
    + right. exists j. split; [right; exact Hj|exact Hn].
  - right. exists i. split; [left; reflexivity|exact Hf].
Qed.

Lemma place_order_ok (s : store) (payload : PlaceOrderRequest) :
  forallb OrderItem.valid (po_items payload) = true ->
  Forall (fun i => float_of_int (OrderItem.quantity i) <> None) (po_items payload) ->
  place_order payload (Some s) =
    (Ok (oid_str (next_oid s),
         match po_items payload with
         | [] => PInt 0
         | _ :: _ => PFloat (fadd (fsum (map line_total (po_items payload))) fzero)
         end),
     Some (mkStore (users s) (categories s) (products s)
             ((orders s ++
               [(next_oid s,
                 Order.mk (po_user_id payload) (po_email payload) (po_items payload)
                   (fsum (map line_total (po_items payload))) fzero
                   (fadd (fsum (map line_total (po_items payload))) fzero) "placed"
                   (po_notes payload) (po_shipping_name payload)
                   (po_shipping_address payload) (po_shipping_phone payload))])%list)
             (N.succ (next_oid s)))).
Proof.
  destruct payload as [uid em items nt sn sa sp]. cbn [po_items].
  intros Hv Hc. cbn [po_user_id po_email po_notes po_shipping_name
                     po_shipping_address po_shipping_phone].
  assert (Hn : Forall (fun x => nonnegf x = true) (map line_total items)).
  { apply Forall_map. apply Forall_forall. intros i Hi.
    apply line_total_nonneg.
    - rewrite forallb_forall in Hv. apply Hv. exact Hi.
    - rewrite Forall_forall in Hc. apply Hc. exact Hi. }
  assert (Hx : nonnegf (fsum (map line_total items)) = true)
    by (apply fold_fadd_nonneg; [reflexivity|exact Hn]).
  assert (Hsum := sum_line_totals_start _ Hc).
  unfold place_order, bind, require_db, lift. cbn [po_items]. rewrite Hsum.
  remember (fsum (map line_total items)) as x eqn:Ex.
  destruct items as [|i rest].
  - subst x. vm_compute. reflexivity.
  - assert (Htot : nonnegf (fadd x fzero) = true) by (apply fadd_nonneg; auto).
    rewrite <- !fge0_nonnegf in *.
    cbn -[oid_str fge0 fadd].
    unfold make_order, nonneg_field, order_float_field, obind.
    change (float_of_int 0) with (Some fzero).
    change (S754_zero false) with fzero. rewrite Hx, Htot.
    replace (fge0 fzero) with true by reflexivity.
    reflexivity.
Qed.

Lemma utf8_take_le (n : nat) (s : string) : (utf8_length (utf8_take n s) <= n)%nat.
Proof.
  revert n. induction s as [|c s IH]; intro n; simpl; [lia|].
  destruct (is_utf8_cont c) eqn:Hc; simpl; rewrite ?Hc.
  - apply IH.
  - destruct n as [|n]; simpl; rewrite ?Hc; [lia|]. specialize (IH n). lia.
Qed.

Lemma utf8_take_prefix (n : nat) (s : string) : exists rest, s = utf8_take n s ++ rest.
Proof.
  revert n. induction s as [|c s IH]; intro n; simpl; [exists EmptyString; reflexivity|].
  destruct (is_utf8_cont c).
  - destruct (IH n) as [r Hr]. exists r. simpl. rewrite <- Hr. reflexivity.
  - destruct n as [|n].
    + exists (String c s). reflexivity.
    + destruct (IH n) as [r Hr]. exists r. simpl. rewrite <- Hr. reflexivity.
Qed.

(** * Claims *)

(** C2: category listing groups the retrieved categories by their direct
    [parent_id] only: under each key [k] (None for roots) it lists exactly
    the categories whose [parent_id] is [k], in retrieval order, and no
    other key is present.  For A (root), B (parent A), C (parent B): A is
    under the no-parent key, B under A's id, C under B's id (so not under
    A's). *)
Theorem list_categories_direct_parent :
  (forall s : store, exists m,
     list_categories (Some s) = (Ok m, Some s) /\
     forall k,
       lookup_parent k m =
       (let cats := map stringify (get_documents_limit 100 (categories s)) in
        if existsb (has_parent k) cats then Some (filter (has_parent k) cats)
        else None)) /\
  (exists m, fst (list_categories (Some abc_store)) = Ok m /\
     lookup_parent None m = Some [(oid_str 0%N, cat_A)] /\
     lookup_parent (Some (oid_str 0%N)) m = Some [(oid_str 1%N, cat_B)] /\
     lookup_parent (Some (oid_str 1%N)) m = Some [(oid_str 2%N, cat_C)]).
Proof.
  split.
  - intro s. eexists. split; [reflexivity|].
    intro k. unfold group_by_parent. rewrite lookup_group_from. reflexivity.
  - eexists. split; [reflexivity|]. vm_compute. repeat split.
Qed.

(** C3: after a signup with an email no user has, a login with the same
    email and password against the resulting store succeeds and returns
    the [user_id] the signup returned. *)
Theorem signup_then_login (s : store) (p : SignupRequest)
  (Hfresh : find_user_by_email s (su_email p) = None) :
  exists user_id s',
    signup p (Some s) = (Ok (user_id, su_email p), Some s') /\
    login (mkLogin (su_email p) (su_password p)) (Some s') =
      (Ok (user_id, su_name p, su_email p), Some s').
Proof.
  unfold signup, bind, require_db. simpl. rewrite Hfresh.
  unfold insert_user, bind, require_db, put_store, ret. simpl.
  eexists. eexists. split; [reflexivity|].
  unfold login, bind, require_db. simpl.
  unfold find_user_by_email. simpl. rewrite find_app.
  change (find _ (users s)) with (find_user_by_email s (su_email p)).
  rewrite Hfresh. simpl. rewrite !String.eqb_refl. reflexivity.
Qed.

Lemma signup_then_login_witness :
  find_user_by_email empty_store "ada@example.com" = None /\
  exists user_id s',
    signup (mkSignup "Ada" "ada@example.com" "pw") (Some empty_store) =
      (Ok (user_id, "ada@example.com"), Some s') /\
    login (mkLogin "ada@example.com" "pw") (Some s') =
      (Ok (user_id, "Ada", "ada@example.com"), Some s').
Proof.
  split; [reflexivity|].
  apply (signup_then_login empty_store (mkSignup "Ada" "ada@example.com" "pw")).
  reflexivity.
Defined.

(** C6: with the store available, login fails with the one response
    [HTTPException(401, "Invalid credentials")], store unchanged, exactly
    when no user has the email or the first such user's stored password
    differs from the supplied one; otherwise it returns
    [(str(_id), name, email)] of that user. *)
Theorem login_generic_failure (s : store) (p : LoginRequest) :
  (login p (Some s) = (Raise (HTTPException 401 "Invalid credentials"), Some s) <->
     match find_user_by_email s (li_email p) with
     | None => True
     | Some (_, u) => User.hashed_password u <> li_password p
     end) /\
  (forall id u, find_user_by_email s (li_email p) = Some (id, u) ->
     User.hashed_password u = li_password p ->
     login p (Some s) = (Ok (oid_str id, User.name u, User.email u), Some s)).
Proof.
  unfold login, bind, require_db. simpl. split.
  - destruct (find_user_by_email s (li_email p)) as [[id u]|]; simpl.
    + destruct (String.eqb (User.hashed_password u) (li_password p)) eqn:E; simpl.
      * apply String.eqb_eq in E. split; [discriminate|contradiction].
      * apply String.eqb_neq in E. split; auto.
    + split; auto.
  - intros id u Hf Hp. rewrite Hf. simpl. rewrite Hp, String.eqb_refl. reflexivity.
Qed.

(** C7: with the store available, a signup whose email is that of a user
    document already stored fails with
    [HTTPException(400, "Email already registered")], whatever the
    password, and the store is unchanged. *)
Theorem signup_existing_email (s : store) (p : SignupRequest) id u
  (Hin : In (id, u) (users s)) (Hemail : User.email u = su_email p) :
  signup p (Some s) = (Raise (HTTPException 400 "Email already registered"), Some s).
Proof.
  destruct (find_user_exists s (su_email p) id u Hin Hemail) as [d Hd].
  unfold signup, bind, require_db. simpl. rewrite Hd. reflexivity.
Qed.

Lemma signup_existing_email_witness :
  In (0%N, User.mk "Ada" "ada@example.com" "pw" "customer" true)
     (users (mkStore [(0%N, User.mk "Ada" "ada@example.com" "pw" "customer" true)]
                     [] [] [] 1%N)) /\
  signup (mkSignup "Eve" "ada@example.com" "other")
    (Some (mkStore [(0%N, User.mk "Ada" "ada@example.com" "pw" "customer" true)]
                   [] [] [] 1%N)) =
  (Raise (HTTPException 400 "Email already registered"),
   Some (mkStore [(0%N, User.mk "Ada" "ada@example.com" "pw" "customer" true)]
                 [] [] [] 1%N)).
Proof.
  split; [simpl; auto|].
  apply (signup_existing_email _ _ 0%N (User.mk "Ada" "ada@example.com" "pw" "customer" true)).
  - simpl. auto.
  - reflexivity.
Defined.

(** C9: [GET /categories] and [GET /products] leave the store as it was,
    so a second identical call returns what the first returned. *)
Theorem reads_are_pure (db : option store) category_id subcategory_id q limit :
  snd (list_categories db) = db /\
  snd (list_products category_id subcategory_id q limit db) = db /\
  list_categories (snd (list_categories db)) = list_categories db /\
  list_products category_id subcategory_id q limit
    (snd (list_products category_id subcategory_id q limit db)) =
  list_products category_id subcategory_id q limit db.
Proof.
  assert (Hc : snd (list_categories db) = db)
    by (destruct db; reflexivity).
  assert (Hp : snd (list_products category_id subcategory_id q limit db) = db).
  { destruct db as [s|]; [|reflexivity].
    unfold list_products, get_products, bind, require_db. simpl.
    destruct (filter_docs _ (products s)); reflexivity. }
  rewrite Hc, Hp. auto.
Qed.

(** C10: in product listing an empty-string parameter adds no clause to
    the filter and gives the same result as the absent parameter. *)
Theorem list_products_empty_as_absent (db : option store)
    category_id subcategory_id q limit :
  build_filter (Some "") subcategory_id q = build_filter None subcategory_id q /\
  build_filter category_id (Some "") q = build_filter category_id None q /\
  build_filter category_id subcategory_id (Some "") =
    build_filter category_id subcategory_id None /\
  list_products (Some "") subcategory_id q limit db =
    list_products None subcategory_id q limit db /\
  list_products category_id (Some "") q limit db =
    list_products category_id None q limit db /\
  list_products category_id subcategory_id (Some "") limit db =
    list_products category_id subcategory_id None limit db.
Proof.
  assert (H1 : build_filter (Some "") subcategory_id q = build_filter None subcategory_id q)
    by reflexivity.
  assert (H2 : build_filter category_id (Some "") q = build_filter category_id None q)
    by reflexivity.
  assert (H3 : build_filter category_id subcategory_id (Some "") =
               build_filter category_id subcategory_id None) by reflexivity.
  unfold list_products. rewrite H1, H2, H3. repeat split.
Qed.

(** C5, counterexample: a valid product whose [category_id] is the empty
    string is not checked ([if prod.category_id:] is false) and is
    inserted. *)
Lemma create_product_empty_category_cex :
  post_products cable_no_category (Some empty_store) =
  (Ok (oid_str 0%N), Some (mkStore [] [] [(0%N, cable_no_category)] [] 1%N)).
Proof. vm_compute. reflexivity. Qed.

(** C5, amended: with the store available and a payload that passes the
    [Product] validation, a non-empty [category_id] that [ObjectId] does
    not accept makes the request fail with
    [HTTPException(400, "Invalid category_id")] and nothing is inserted;
    an empty [category_id] is not checked and the product is inserted. *)
Theorem create_product_invalid_category :
  (forall (s : store) (prod : Product.t),
     Product.valid prod = true ->
     Product.category_id prod <> "" ->
     objectid_valid (Product.category_id prod) = false ->
     post_products prod (Some s) =
       (Raise (HTTPException 400 "Invalid category_id"), Some s)) /\
  (forall (s : store) (prod : Product.t),
     Product.valid prod = true ->
     Product.category_id prod = "" ->
     post_products prod (Some s) =
       (Ok (oid_str (next_oid s)),
        Some (mkStore (users s) (categories s) ((products s ++ [(next_oid s, prod)])%list)
                      (orders s) (N.succ (next_oid s))))).
Proof.
  split.
  - intros s prod Hv Hne Hbad.
    unfold post_products. rewrite Hv.
    unfold create_product, bind, require_db. simpl.
    apply String.eqb_neq in Hne. rewrite Hne, Hbad. reflexivity.
  - intros s prod Hv He.
    unfold post_products. rewrite Hv.
    unfold create_product, bind, require_db. simpl.
    rewrite He. reflexivity.
Qed.

Lemma create_product_invalid_category_witness :
  Product.valid cable_bad_category = true /\
  Product.category_id cable_bad_category <> "" /\
  objectid_valid (Product.category_id cable_bad_category) = false /\
  post_products cable_bad_category (Some empty_store) =
    (Raise (HTTPException 400 "Invalid category_id"), Some empty_store).
Proof.
  refine (conj eq_refl (conj _ (conj eq_refl _))); [discriminate|].
  apply (proj1 create_product_invalid_category); [reflexivity|discriminate|reflexivity].
Defined.

(** C4, counterexample: an order request with no items passes validation
    and an order with total 0 is placed. *)
Lemma post_orders_empty_items_cex :
  post_orders empty_order_request (Some empty_store) =
  (Ok (oid_str 0%N, PInt 0),
   Some (mkStore [] [] []
           [(0%N, Order.mk "u1" "ada@example.com" [] fzero fzero fzero "placed"
                           None None None None)] 1%N)).
Proof. vm_compute. reflexivity. Qed.

(** C4, amended: [POST /orders] rejects a request with the validation
    error, before the handler runs and with the store untouched, exactly
    when some item has [quantity < 1] or a [unit_price] failing
    [unit_price >= 0]; an empty item list is accepted and, with the store
    available, an order with no items, subtotal, tax and total [0.0] and
    status ["placed"] is appended under a fresh id, and the response total
    is [0]. *)
Theorem post_orders_validation :
  (forall (db : option store) (payload : PlaceOrderRequest),
     (exists i, In i (po_items payload) /\
        (OrderItem.quantity i < 1 \/ fge0 (OrderItem.unit_price i) = false)) <->
     post_orders payload db = (Raise RequestValidationError, db)) /\
  (forall (s : store) (payload : PlaceOrderRequest),
     po_items payload = [] ->
     post_orders payload (Some s) =
       (Ok (oid_str (next_oid s), PInt 0),
        Some (mkStore (users s) (categories s) (products s)
                ((orders s ++
                  [(next_oid s,
                    Order.mk (po_user_id payload) (po_email payload) []
                      fzero fzero fzero "placed" (po_notes payload)
                      (po_shipping_name payload) (po_shipping_address payload)
                      (po_shipping_phone payload))])%list)
                (N.succ (next_oid s))))).
Proof.
  split.
  - intros db payload. unfold post_orders. split.
    + intros [i [Hin Hi]].
      replace (forallb OrderItem.valid (po_items payload)) with false; [reflexivity|].
      symmetry. apply not_true_iff_false. rewrite forallb_forall. intro Hall.
      specialize (Hall i Hin). unfold OrderItem.valid in Hall.
      apply andb_true_iff in Hall. destruct Hall as [Hq Hp].
      apply Z.leb_le in Hq. destruct Hi; [lia|congruence].
    + destruct (forallb OrderItem.valid (po_items payload)) eqn:Hall.
      * intro H. exfalso. apply (place_order_not_request_error payload db).
        rewrite H. reflexivity.
      * intros _.
        apply forallb_false_exists in Hall.
        destruct Hall as [i [Hin Hv]]. exists i. split; [exact Hin|]. unfold OrderItem.valid in Hv.
        apply andb_false_iff in Hv. destruct Hv as [Hq|Hp]; [left|right; exact Hp].
        apply Z.leb_gt in Hq. lia.
  - intros s payload He.
    assert (Hv : forallb OrderItem.valid (po_items payload) = true) by (rewrite He; reflexivity).
    assert (Hc : Forall (fun i => float_of_int (OrderItem.quantity i) <> None) (po_items payload))
      by (rewrite He; constructor).
    unfold post_orders. rewrite Hv, (place_order_ok s payload Hv Hc), He. reflexivity.
Qed.

(** C8, counterexample: [q] is passed to MongoDB as a regular expression,
    not as a substring: [q = "usb.c"] returns the product "USB-C hub",
    whose name does not contain "usb.c" in any letter-case. *)
Lemma list_products_q_regex_cex :
  list_products None None (Some "usb.c") 100
    (Some (mkStore [] [] [(0%N, usb_c_hub)] [] 1%N)) =
  (Ok [(oid_str 0%N, usb_c_hub)], Some (mkStore [] [] [(0%N, usb_c_hub)] [] 1%N)) /\
  ci_contains "usb.c" (Product.name usb_c_hub) = false.
Proof. split; vm_compute; reflexivity. Qed.

(** C8, amended: the filter has a clause only for each provided
    (non-empty) parameter; [q] becomes the clause
    [{"$regex": q, "$options": "i"}] on the name.  For a [q] without
    regular-expression syntax, listing returns, in store order and capped
    at [limit], exactly the products with the given [category_id] and
    [subcategory_id] whose name contains [q] in some letter-case; so with
    [q = "cable"] every returned name contains "cable". *)
Theorem list_products_filter :
  (forall category_id subcategory_id w,
     w <> "" ->
     In ("name", FRegex w "i") (build_filter category_id subcategory_id (Some w))) /\
  (forall (s : store) category_id subcategory_id q limit,
     (forall w, q = Some w -> regex_literal w = true) ->
     list_products category_id subcategory_id q limit (Some s) =
     (Ok (map stringify
            (firstn (Z.to_nat limit)
               (filter (fun d => spec_product_match category_id subcategory_id q (snd d))
                       (products s)))),
      Some s)) /\
  (forall (s : store) category_id subcategory_id limit prods,
     list_products category_id subcategory_id (Some "cable") limit (Some s) =
       (Ok prods, Some s) ->
     (length prods <= Z.to_nat limit)%nat /\
     forall p, In p prods -> ci_contains "cable" (Product.name (snd p)) = true).
Proof.
  assert (Hlist : forall (s : store) category_id subcategory_id q limit,
     (forall w, q = Some w -> regex_literal w = true) ->
     list_products category_id subcategory_id q limit (Some s) =
     (Ok (map stringify
            (firstn (Z.to_nat limit)
               (filter (fun d => spec_product_match category_id subcategory_id q (snd d))
                       (products s)))),
      Some s)).
  { intros s category_id subcategory_id q limit Hq.
    unfold list_products, get_products, bind, require_db. simpl.
    rewrite (filter_docs_spec _ _ _
               (fun p => doc_matches_build_filter category_id subcategory_id q p Hq)).
    reflexivity. }
  split; [|split].
  - intros category_id subcategory_id w Hw. unfold build_filter, set_if.
    apply String.eqb_neq in Hw. rewrite Hw.
    apply in_or_app. right. left. reflexivity.
  - exact Hlist.
  - intros s category_id subcategory_id limit prods H.
    rewrite Hlist in H by (intros w Hw; inversion Hw; reflexivity).
    inversion H as [Hp]. clear H. split.
    + rewrite length_map. apply firstn_le_length.
    + intros p Hin. apply in_map_iff in Hin. destruct Hin as [d [Hd Hin]].
      subst p. apply in_firstn in Hin.
      apply filter_In in Hin. destruct Hin as [_ Hm].
      unfold spec_product_match in Hm.
      apply andb_true_iff in Hm. destruct Hm as [_ Hm]. exact Hm.
Qed.

Lemma list_products_filter_witness :
  list_products None None (Some "cable") 100 (Some catalog_store) =
  (Ok [(oid_str 1%N, hdmi_cable)], Some catalog_store).
Proof.
  rewrite (proj1 (proj2 list_products_filter) catalog_store None None (Some "cable") 100).
  - vm_compute. reflexivity.
  - intros w Hw. inversion Hw. reflexivity.
Defined.

(** C1, counterexample: a valid item whose quantity is [2 ** 1024] makes
    [quantity * unit_price] raise [OverflowError] (the int does not
    convert to a float), so no order is placed. *)
Lemma place_order_overflow_cex :
  forallb OrderItem.valid (po_items huge_order_request) = true /\
  post_orders huge_order_request (Some empty_store) =
    (Raise OverflowError, Some empty_store).
Proof. split; vm_compute; reflexivity. Qed.

(** C1, amended: for a valid order request with the store available whose
    quantities all convert to floats, one order is inserted with
    [subtotal] the float sum of [quantity * unit_price] over the items,
    [tax = 0] and [total = subtotal + tax], and the response returns the
    order id and that total.  For the items [(2, 10.0)] and [(1, 5.5)]:
    subtotal 25.5, tax 0, total 25.5. *)
Theorem place_order_totals :
  (forall (s : store) (payload : PlaceOrderRequest),
     forallb OrderItem.valid (po_items payload) = true ->
     Forall (fun i => float_of_int (OrderItem.quantity i) <> None) (po_items payload) ->
     exists total o,
       post_orders payload (Some s) =
         (Ok (oid_str (next_oid s), total),
          Some (mkStore (users s) (categories s) (products s)
                  ((orders s ++ [(next_oid s, o)])%list) (N.succ (next_oid s)))) /\
       Order.items o = po_items payload /\
       Order.subtotal o = fsum (map line_total (po_items payload)) /\
       Order.tax o = fzero /\
       Order.total o = fadd (Order.subtotal o) (Order.tax o) /\
       to_float total = Ok (Order.total o)) /\
  post_orders example_order_request (Some empty_store) =
    (Ok (oid_str 0%N, PFloat (float_lit 51 (-1))),
     Some (mkStore [] [] []
             [(0%N, Order.mk "u1" "ada@example.com" (po_items example_order_request)
                      (float_lit 51 (-1)) fzero (float_lit 51 (-1)) "placed"
                      None None None None)] 1%N)).
Proof.
  split; [|vm_compute; reflexivity].
  intros s [uid em items nt sn sa sp] Hv Hc. cbn [po_items] in *.
  assert (Hn : Forall (fun x => nonnegf x = true) (map line_total items)).
  { apply Forall_map. apply Forall_forall. intros i Hi.
    apply line_total_nonneg.
    - rewrite forallb_forall in Hv. apply Hv. exact Hi.
    - rewrite Forall_forall in Hc. apply Hc. exact Hi. }
  assert (Hx : nonnegf (fsum (map line_total items)) = true)
    by (apply fold_fadd_nonneg; [reflexivity|exact Hn]).
  assert (Hsum := sum_line_totals_start _ Hc).
  unfold post_orders. cbn [po_items]. rewrite Hv.
  unfold place_order, bind, require_db, lift. cbn [po_items]. rewrite Hsum.
  remember (fsum (map line_total items)) as x eqn:Ex.
  destruct items as [|i rest].
  - cbn -[oid_str]. eexists. eexists. split; [reflexivity|].
    subst x. repeat split; vm_compute; reflexivity.
  - assert (Htot : nonnegf (fadd x fzero) = true) by (apply fadd_nonneg; auto).
    rewrite <- !fge0_nonnegf in *.
    cbn -[oid_str fge0 fadd].
    unfold make_order, nonneg_field, order_float_field, obind.
    change (float_of_int 0) with (Some fzero).
    change (S754_zero false) with fzero. rewrite Hx, Htot.
    replace (fge0 fzero) with true by reflexivity.
    cbn -[oid_str fadd].
    eexists. eexists. split; [reflexivity|]. repeat split.
Qed.

Lemma place_order_totals_witness :
  exists total o,
    post_orders example_order_request (Some empty_store) =
      (Ok (oid_str 0%N, total), Some (mkStore [] [] [] [(0%N, o)] 1%N)) /\
    Order.items o = po_items example_order_request /\
    Order.subtotal o = fsum (map line_total (po_items example_order_request)) /\
    Order.tax o = fzero /\
    Order.total o = fadd (Order.subtotal o) (Order.tax o) /\
    to_float total = Ok (Order.total o).
Proof.
  apply (proj1 place_order_totals empty_store example_order_request).
  - vm_compute. reflexivity.
  - repeat constructor; vm_compute; discriminate.
Defined.

(** * Further properties of the handlers *)

(** Without a database every handler fails with
    [HTTPException(500, "Database not configured")] and nothing is
    stored. *)
Theorem handlers_without_db :
  (forall p, signup p None =
     (Raise (HTTPException 500 "Database not configured"), None)) /\
  (forall p, login p None =
     (Raise (HTTPException 500 "Database not configured"), None)) /\
  list_categories None =
     (Raise (HTTPException 500 "Database not configured"), None) /\
  (forall c, create_category c None =
     (Raise (HTTPException 500 "Database not configured"), None)) /\
  (forall p, create_product p None =
     (Raise (HTTPException 500 "Database not configured"), None)) /\
  (forall category_id subcategory_id q limit,
     list_products category_id subcategory_id q limit None =
     (Raise (HTTPException 500 "Database not configured"), None)) /\
  (forall p, place_order p None =
     (Raise (HTTPException 500 "Database not configured"), None)).
Proof. repeat split; reflexivity. Qed.

(** A signup with a fresh email appends one user document, with the
    supplied password stored as is in [hashed_password], role
    ["customer"] and [is_active = true], and returns its id. *)
Theorem signup_stores_user (s : store) (p : SignupRequest)
  (Hfresh : find_user_by_email s (su_email p) = None) :
  signup p (Some s) =
    (Ok (oid_str (next_oid s), su_email p),
     Some (mkStore ((users s ++ [(next_oid s, User.mk (su_name p) (su_email p)
                                   (su_password p) "customer" true)])%list)
                   (categories s) (products s) (orders s) (N.succ (next_oid s)))).
Proof.
  unfold signup, bind, require_db. cbn beta iota. rewrite Hfresh. reflexivity.
Qed.

Lemma signup_stores_user_witness :
  find_user_by_email empty_store "ada@example.com" = None /\
  signup (mkSignup "Ada" "ada@example.com" "pw") (Some empty_store) =
    (Ok (oid_str 0%N, "ada@example.com"),
     Some (mkStore [(0%N, User.mk "Ada" "ada@example.com" "pw" "customer" true)]
                   [] [] [] 1%N)).
Proof.
  split; [reflexivity|].
  apply (signup_stores_user empty_store (mkSignup "Ada" "ada@example.com" "pw")).
  reflexivity.
Defined.

(** Signup keeps the stored emails pairwise distinct: from a store with no
    two users sharing an email, every signup (accepted or refused) leaves
    a store with no two users sharing an email. *)
Theorem signup_keeps_emails_unique (s : store) (p : SignupRequest) r s'
  (Huniq : NoDup (user_emails s))
  (Hrun : signup p (Some s) = (r, Some s')) :
  NoDup (user_emails s').
Proof.
  unfold signup, bind, require_db in Hrun. cbn beta iota in Hrun.
  destruct (find_user_by_email s (su_email p)) eqn:Hf.
  - inversion Hrun. subst. exact Huniq.
  - inversion Hrun. subst. unfold user_emails. simpl.
    rewrite map_app. simpl. apply NoDup_snoc; [exact Huniq|].
    apply find_user_none_not_in. exact Hf.
Qed.

Lemma signup_keeps_emails_unique_witness :
  NoDup (user_emails (mkStore [(0%N, User.mk "Ada" "ada@example.com" "pw" "customer" true)]
                              [] [] [] 1%N)) /\
  signup (mkSignup "Bob" "bob@example.com" "pw2")
    (Some (mkStore [(0%N, User.mk "Ada" "ada@example.com" "pw" "customer" true)]
                   [] [] [] 1%N)) =
    (Ok (oid_str 1%N, "bob@example.com"),
     Some (mkStore [(0%N, User.mk "Ada" "ada@example.com" "pw" "customer" true);
                    (1%N, User.mk "Bob" "bob@example.com" "pw2" "customer" true)]
                   [] [] [] 2%N)) /\
  NoDup (user_emails (mkStore [(0%N, User.mk "Ada" "ada@example.com" "pw" "customer" true);
                               (1%N, User.mk "Bob" "bob@example.com" "pw2" "customer" true)]
                              [] [] [] 2%N)).
Proof.
  assert (H0 : NoDup (user_emails (mkStore [(0%N, User.mk "Ada" "ada@example.com" "pw"
                                                    "customer" true)] [] [] [] 1%N)))
    by (repeat constructor; simpl; tauto).
  assert (H1 : signup (mkSignup "Bob" "bob@example.com" "pw2")
    (Some (mkStore [(0%N, User.mk "Ada" "ada@example.com" "pw" "customer" true)]
                   [] [] [] 1%N)) =
    (Ok (oid_str 1%N, "bob@example.com"),
     Some (mkStore [(0%N, User.mk "Ada" "ada@example.com" "pw" "customer" true);
                    (1%N, User.mk "Bob" "bob@example.com" "pw2" "customer" true)]
                   [] [] [] 2%N))) by reflexivity.
  split; [exact H0|]. split; [exact H1|].
  exact (signup_keeps_emails_unique _ _ _ _ H0 H1).
Defined.

(** Login never writes: whatever the store and the request, the store
    after a login is the store before it. *)
Theorem login_read_only (db : option store) (p : LoginRequest) :
  snd (login p db) = db.
Proof.
  destruct db as [s|]; [|reflexivity].
  unfold login, bind, require_db. cbn beta iota.
  destruct (find_user_by_email s (li_email p)) as [[id u]|]; [|reflexivity].
  destruct (negb _); reflexivity.
Qed.

(** [POST /categories] accepts any category (its [parent_id] is not
    checked) and appends it under a fresh id; while the store holds fewer
    than 100 categories, the next [GET /categories] lists the new category,
    with that id, last under the key of its [parent_id]. *)
Theorem create_category_then_list (s : store) (c : Category.t)
  (Hlen : (length (categories s) < 100)%nat) :
  exists s' m l,
    create_category c (Some s) = (Ok (oid_str (next_oid s)), Some s') /\
    categories s' = (categories s ++ [(next_oid s, c)])%list /\
    list_categories (Some s') = (Ok m, Some s') /\
    lookup_parent (Category.parent_id c) m =
      Some (l ++ [(oid_str (next_oid s), c)])%list.
Proof.
  exists (mkStore (users s) ((categories s ++ [(next_oid s, c)])%list) (products s)
                  (orders s) (N.succ (next_oid s))).
  eexists.
  exists (filter (has_parent (Category.parent_id c)) (map stringify (categories s))).
  split; [reflexivity|]. split; [reflexivity|]. split; [reflexivity|].
  unfold group_by_parent. rewrite lookup_group_from. cbn [lookup_parent find option_map].
  unfold get_documents_limit. cbn [categories].
  rewrite firstn_all2 by (rewrite length_app; simpl; lia).
  rewrite map_app, existsb_app, filter_app. cbn [map filter existsb].
  assert (Hk : has_parent (Category.parent_id c) (stringify (next_oid s, c)) = true)
    by (apply option_string_eqb_spec; reflexivity).
  rewrite Hk, orb_true_r. reflexivity.
Qed.

Lemma create_category_then_list_witness :
  (length (categories abc_store) < 100)%nat /\
  exists s' m l,
    create_category (Category.mk "D" (Some "no-such-parent") None) (Some abc_store) =
      (Ok (oid_str (next_oid abc_store)), Some s') /\
    categories s' =
      (categories abc_store ++
       [(next_oid abc_store, Category.mk "D" (Some "no-such-parent") None)])%list /\
    list_categories (Some s') = (Ok m, Some s') /\
    lookup_parent (Some "no-such-parent") m =
      Some (l ++ [(oid_str (next_oid abc_store),
                   Category.mk "D" (Some "no-such-parent") None)])%list.
Proof.
  split; [simpl; lia|].
  apply (create_category_then_list abc_store (Category.mk "D" (Some "no-such-parent") None)).
  simpl. lia.
Defined.

(** [POST /products] checks only the format of [category_id]: a valid
    payload whose [category_id] [ObjectId] accepts is inserted, whatever
    the stored categories, even when no category has that id. *)
Theorem create_product_existence_unchecked (s : store) (prod : Product.t)
  (Hv : Product.valid prod = true)
  (Hfmt : objectid_valid (Product.category_id prod) = true) :
  post_products prod (Some s) =
    (Ok (oid_str (next_oid s)),
     Some (mkStore (users s) (categories s) ((products s ++ [(next_oid s, prod)])%list)
                   (orders s) (N.succ (next_oid s)))).
Proof. apply create_product_inserts; assumption. Qed.

Lemma create_product_existence_unchecked_witness :
  categories empty_store = [] /\
  Product.valid (Product.mk "HDMI cable" None (float_lit 5 0) None None
                   "0123456789abcdef01234567" None true None) = true /\
  objectid_valid "0123456789abcdef01234567" = true /\
  post_products (Product.mk "HDMI cable" None (float_lit 5 0) None None
                   "0123456789abcdef01234567" None true None) (Some empty_store) =
    (Ok (oid_str 0%N),
     Some (mkStore [] [] [(0%N, Product.mk "HDMI cable" None (float_lit 5 0) None None
                                  "0123456789abcdef01234567" None true None)] [] 1%N)).
Proof.
  split; [reflexivity|]. split; [vm_compute; reflexivity|].
  split; [vm_compute; reflexivity|].
  apply (create_product_existence_unchecked empty_store
           (Product.mk "HDMI cable" None (float_lit 5 0) None None
              "0123456789abcdef01234567" None true None));
    vm_compute; reflexivity.
Defined.

(** The id returned by [POST /categories] passes the [category_id] check
    of [POST /products]: a valid product created with it is inserted. *)
Theorem category_id_round_trip (s : store) (c : Category.t) (prod : Product.t)
  (Hv : Product.valid prod = true)
  (Hid : Product.category_id prod = oid_str (next_oid s)) :
  exists s',
    create_category c (Some s) = (Ok (oid_str (next_oid s)), Some s') /\
    post_products prod (Some s') =
      (Ok (oid_str (N.succ (next_oid s))),
       Some (mkStore (users s') (categories s')
                     ((products s' ++ [(N.succ (next_oid s), prod)])%list)
                     (orders s') (N.succ (N.succ (next_oid s))))).
Proof.
  eexists. split; [reflexivity|].
  apply create_product_inserts; [exact Hv|]. rewrite Hid. apply oid_str_valid.
Qed.

Lemma category_id_round_trip_witness :
  Product.valid (Product.mk "Hub" None (float_lit 20 0) None None (oid_str 3%N)
                   None true None) = true /\
  Product.category_id (Product.mk "Hub" None (float_lit 20 0) None None (oid_str 3%N)
                         None true None) = oid_str (next_oid abc_store) /\
  exists s',
    create_category (Category.mk "D" None None) (Some abc_store) =
      (Ok (oid_str (next_oid abc_store)), Some s') /\
    post_products (Product.mk "Hub" None (float_lit 20 0) None None (oid_str 3%N)
                     None true None) (Some s') =
      (Ok (oid_str (N.succ (next_oid abc_store))),
       Some (mkStore (users s') (categories s')
               ((products s' ++ [(N.succ (next_oid abc_store),
                   Product.mk "Hub" None (float_lit 20 0) None None (oid_str 3%N)
                     None true None)])%list)
               (orders s') (N.succ (N.succ (next_oid abc_store))))).
Proof.
  split; [vm_compute; reflexivity|]. split; [vm_compute; reflexivity|].
  apply category_id_round_trip; vm_compute; reflexivity.
Defined.

(** Category listing is a partition of the retrieved categories: its keys
    are pairwise distinct and its groups together hold each retrieved
    category exactly once. *)
Theorem list_categories_partition (s : store) :
  exists m,
    list_categories (Some s) = (Ok m, Some s) /\
    NoDup (map fst m) /\
    Permutation (concat (map snd m))
                (map stringify (get_documents_limit 100 (categories s))).
Proof.
  eexists. split; [reflexivity|].
  unfold group_by_parent.
  apply (group_from_invariant _ []). constructor.
Qed.

(** For an order request whose items pass validation, with the store
    available: when some item's quantity does not convert to a float,
    [POST /orders] raises [OverflowError] while computing the subtotal,
    before anything is stored; otherwise the [Order] built from the
    computed subtotal, tax and total always passes its [ge=0] checks. *)
Theorem post_orders_overflow_and_order_valid (s : store) (payload : PlaceOrderRequest)
  (Hv : forallb OrderItem.valid (po_items payload) = true) :
  ((exists i, In i (po_items payload) /\ float_of_int (OrderItem.quantity i) = None) ->
   post_orders payload (Some s) = (Raise OverflowError, Some s)) /\
  (forall subtotal total,
     sum_line_totals (PInt 0) (po_items payload) = Ok subtotal ->
     py_add subtotal (PInt 0) = Ok total ->
     exists o, make_order payload subtotal (PInt 0) total = Ok o).
Proof.
  split.
  - intros [i [Hi Hn]]. unfold post_orders. rewrite Hv.
    destruct (sum_line_totals (PInt 0) (po_items payload)) as [v|e] eqn:Hs.
    { apply sum_line_totals_conv in Hs. rewrite Forall_forall in Hs.
      exfalso. exact (Hs i Hi Hn). }
    assert (He := sum_line_totals_raise _ _ _ Hs). subst e.
    unfold place_order, bind, require_db, lift. cbn beta iota.
    rewrite Hs. reflexivity.
  - intros subtotal total Hs Ht.
    destruct (make_order payload subtotal (PInt 0) total) as [o|e] eqn:Ho;
      [exists o; reflexivity|exfalso].
    assert (Hc := sum_line_totals_conv _ _ _ Hs).
    assert (Hp := place_order_ok s payload Hv Hc).
    unfold place_order, bind, require_db, lift in Hp. cbn beta iota in Hp.
    rewrite Hs in Hp. cbn beta iota in Hp. rewrite Ht in Hp. cbn beta iota in Hp.
    rewrite Ho in Hp. discriminate.
Qed.

Lemma post_orders_overflow_and_order_valid_witness :
  forallb OrderItem.valid (po_items huge_order_request) = true /\
  ((exists i, In i (po_items huge_order_request) /\
              float_of_int (OrderItem.quantity i) = None) ->
   post_orders huge_order_request (Some empty_store) =
     (Raise OverflowError, Some empty_store)) /\
  (forall subtotal total,
     sum_line_totals (PInt 0) (po_items huge_order_request) = Ok subtotal ->
     py_add subtotal (PInt 0) = Ok total ->
     exists o, make_order huge_order_request subtotal (PInt 0) total = Ok o).
Proof.
  assert (Hv : forallb OrderItem.valid (po_items huge_order_request) = true)
    by (vm_compute; reflexivity).
  split; [exact Hv|]. apply post_orders_overflow_and_order_valid. exact Hv.
Defined.

(** The order [POST /orders] stores copies [user_id], [email], [items],
    [notes] and the shipping fields of the request, with status
    ["placed"] and tax [0]. *)
Theorem post_orders_stores_request (s : store) (payload : PlaceOrderRequest)
  (Hv : forallb OrderItem.valid (po_items payload) = true)
  (Hc : Forall (fun i => float_of_int (OrderItem.quantity i) <> None) (po_items payload)) :
  exists total o,
    post_orders payload (Some s) =
      (Ok (oid_str (next_oid s), total),
       Some (mkStore (users s) (categories s) (products s)
               ((orders s ++ [(next_oid s, o)])%list) (N.succ (next_oid s)))) /\
    Order.user_id o = po_user_id payload /\
    Order.email o = po_email payload /\
    Order.items o = po_items payload /\
    Order.notes o = po_notes payload /\
    Order.shipping_name o = po_shipping_name payload /\
    Order.shipping_address o = po_shipping_address payload /\
    Order.shipping_phone o = po_shipping_phone payload /\
    Order.status o = "placed" /\
    Order.tax o = fzero.
Proof.
  unfold post_orders. rewrite Hv, (place_order_ok s payload Hv Hc).
  eexists. eexists. split; [reflexivity|]. repeat split.
Qed.

Lemma post_orders_stores_request_witness :
  forallb OrderItem.valid (po_items example_order_request) = true /\
  Forall (fun i => float_of_int (OrderItem.quantity i) <> None)
         (po_items example_order_request) /\
  exists total o,
    post_orders example_order_request (Some empty_store) =
      (Ok (oid_str 0%N, total), Some (mkStore [] [] [] [(0%N, o)] 1%N)) /\
    Order.user_id o = "u1" /\
    Order.email o = "ada@example.com" /\
    Order.items o = po_items example_order_request /\
    Order.notes o = None /\
    Order.shipping_name o = None /\
    Order.shipping_address o = None /\
    Order.shipping_phone o = None /\
    Order.status o = "placed" /\
    Order.tax o = fzero.
Proof.
  assert (Hv : forallb OrderItem.valid (po_items example_order_request) = true)
    by (vm_compute; reflexivity).
  assert (Hc : Forall (fun i => float_of_int (OrderItem.quantity i) <> None)
                      (po_items example_order_request))
    by (repeat constructor; vm_compute; discriminate).
  split; [exact Hv|]. split; [exact Hc|].
  exact (post_orders_stores_request empty_store example_order_request Hv Hc).
Defined.

(** [GET /test]: [database_url] and [database_name] report only whether
    the environment variables are set, whatever the database;
    [connection_status] is ["Connected"] exactly when there is a database;
    [collections] holds at most the first 10 listed names; a listing error
    is reported as ["⚠️  Connected but Error: "] followed by the first (at
    most 50) code points of its message. *)
Theorem test_database_report db db_name lst DATABASE_URL DATABASE_NAME :
  let r := test_database db db_name lst DATABASE_URL DATABASE_NAME in
  database_url r = Some (if truthy DATABASE_URL then "✅ Set" else "❌ Not Set") /\
  database_name r = Some (if truthy DATABASE_NAME then "✅ Set" else "❌ Not Set") /\
  (connection_status r = "Connected" <-> db <> None) /\
  (length (collections r) <= 10)%nat /\
  (forall cols, lst = Listed cols -> exists rest, cols = (collections r ++ rest)%list) /\
  (forall e, db <> None -> lst = ListError e ->
     exists msg rest,
       database r = "⚠️  Connected but Error: " ++ msg /\
       e = msg ++ rest /\ (utf8_length msg <= 50)%nat).
Proof.
  intro r. subst r. unfold test_database.
  destruct db as [st|]; [destruct lst as [cols|e]|];
    cbn [database_url database_name connection_status collections database backend];
    refine (conj eq_refl (conj eq_refl (conj _ (conj _ (conj _ _))))).
  - split; [discriminate|reflexivity].
  - rewrite length_firstn. lia.
  - intros cols' H. inversion H; subst. exists (skipn 10 cols').
    symmetry. apply firstn_skipn.
  - intros e' _ H. discriminate.
  - split; [discriminate|reflexivity].
  - simpl. lia.
  - intros cols H. discriminate.
  - intros e' _ H. inversion H; subst.
    destruct (utf8_take_prefix 50 e') as [rest Hr].
    exists (utf8_take 50 e'), rest. split; [reflexivity|]. split; [exact Hr|].
    apply utf8_take_le.
  - split; [discriminate|intro H; contradiction].
  - simpl. lia.
  - intros cols H. exists cols. reflexivity.
  - intros e H. contradiction.
Qed.
